(** * LivePush audio log analyzer: a shallow embedding of
      [scripts/analyze-audio-logs.py] and the properties of its
      line classification, report sections and verdicts.

    Text model.  A Python [str] is modelled by [string]; a character is an
    [ascii].  The embedding is exact for text in the ASCII range: [lower]
    folds the letters A-Z, [strip] removes the ASCII white space of
    [str.isspace], and the class [\d] of the time stamp pattern is 0-9.
    Characters above 127 are carried through unchanged (they are never a
    letter of a keyword, a digit or white space here).  The two marks of the
    report, [check_mark] and [cross_mark], are written by their UTF-8
    bytes.

    A log file is the list of the lines that iterating over the open file
    yields, in order (each with or without its line terminator). *)

From Stdlib Require Import List String Ascii Arith Bool Lia.
From Stdlib Require Import Sorting.Sorted Sorting.Permutation.
From Stdlib Require Import DecimalString.
Import ListNotations.

Local Open Scope string_scope.
Local Open Scope list_scope.
Local Open Scope nat_scope.

(** String concatenation, kept apart from the append of lists. *)
Infix "+++" := String.append (right associativity, at level 60).

(** ** Python string primitives *)

Module PyStr.

(** [c.lower()] for one character. *)
Definition lower_char (c : ascii) : ascii :=
  let n := nat_of_ascii c in
  if (65 <=? n) && (n <=? 90) then ascii_of_nat (n + 32) else c.

(** [s.lower()] *)
Fixpoint lower (s : string) : string :=
  match s with
  | EmptyString => EmptyString
  | String c s' => String (lower_char c) (lower s')
  end.

(** [c.isspace()]: tab, line feed, vertical tab, form feed, carriage return,
    the four separators 0x1c-0x1f and the space. *)
Definition isspace (c : ascii) : bool :=
  let n := nat_of_ascii c in
  ((9 <=? n) && (n <=? 13)) || ((28 <=? n) && (n <=? 31)) || (n =? 32).

(** [s.lstrip()] *)
Fixpoint lstrip (s : string) : string :=
  match s with
  | EmptyString => EmptyString
  | String c s' => if isspace c then lstrip s' else s
  end.

(** [s.rstrip()] *)
Fixpoint rstrip (s : string) : string :=
  match s with
  | EmptyString => EmptyString
  | String c s' =>
      match rstrip s' with
      | EmptyString => if isspace c then EmptyString else String c EmptyString
      | r => String c r
      end
  end.

(** [s.strip()] *)
Definition strip (s : string) : string := rstrip (lstrip s).

(** [s.startswith(p)] *)
Fixpoint startswith (s p : string) {struct p} : bool :=
  match p with
  | EmptyString => true
  | String a p' =>
      match s with
      | EmptyString => false
      | String b s' => Ascii.eqb a b && startswith s' p'
      end
  end.

(** [sub in s]: [sub] occurs in [s] as a contiguous substring. *)
Fixpoint in_str (sub s : string) : bool :=
  if startswith s sub then true
  else match s with
       | EmptyString => false
       | String _ s' => in_str sub s'
       end.

(** [s[:n]] *)
Fixpoint take (n : nat) (s : string) : string :=
  match n, s with
  | S n', String c s' => String c (take n' s')
  | _, _ => EmptyString
  end.

(** [c * n] for a one-character string. *)
Fixpoint repeat_char (c : ascii) (n : nat) : string :=
  match n with
  | O => EmptyString
  | S n' => String c (repeat_char c n')
  end.

(** [str(n)] for a non-negative integer. *)
Definition str (n : nat) : string := NilEmpty.string_of_uint (Nat.to_uint n).

(** [bool(s)]: a string is true when it is not empty. *)
Definition truthy (s : string) : bool :=
  match s with
  | EmptyString => false
  | String _ _ => true
  end.

End PyStr.

(** ** The time stamp pattern [(\d{2}:\d{2}:\d{2}\.\d{3})] *)

Module Re.

Inductive atom : Type :=
| Digit : atom                 (* \d *)
| Lit : ascii -> atom.         (* a literal character *)

Definition is_digit (c : ascii) : bool :=
  let n := nat_of_ascii c in (48 <=? n) && (n <=? 57).

Definition atom_matches (a : atom) (c : ascii) : bool :=
  match a with
  | Digit => is_digit c
  | Lit d => Ascii.eqb c d
  end.

(** Match a sequence of atoms at the start of [s]; the matched text. *)
Fixpoint match_here (p : list atom) (s : string) : option string :=
  match p with
  | [] => Some EmptyString
  | a :: p' =>
      match s with
      | EmptyString => None
      | String c s' =>
          if atom_matches a c
          then option_map (String c) (match_here p' s')
          else None
      end
  end.

(** [re.search]: the leftmost match. *)
Fixpoint search (p : list atom) (s : string) : option string :=
  match match_here p s with
  | Some m => Some m
  | None =>
      match s with
      | EmptyString => None
      | String _ s' => search p s'
      end
  end.

Definition timestamp_pattern : list atom :=
  [Digit; Digit; Lit ":"; Digit; Digit; Lit ":"; Digit; Digit; Lit ".";
   Digit; Digit; Digit]%char.

End Re.

Import PyStr.

(** The check mark U+2713 and the cross mark U+2717 of the report, each by
    its three UTF-8 bytes. *)
Definition check_mark : string :=
  String (ascii_of_nat 226)
    (String (ascii_of_nat 156) (String (ascii_of_nat 147) EmptyString)).

Definition cross_mark : string :=
  String (ascii_of_nat 226)
    (String (ascii_of_nat 156) (String (ascii_of_nat 151) EmptyString)).

(** The line feed written by [save_summary]. *)
Definition nl : string := String (ascii_of_nat 10) EmptyString.

(** ** Library operations on lists *)

(** [list.sort(key=...)] and [sorted(..., key=...)] are stable sorts: elements
    with equal keys keep their relative order.  They are modelled by the
    stable insertion sort; [before k1 k2] says that key [k1] may stand in
    front of key [k2] ([k1 <= k2] for an ascending sort, [k2 <= k1] with
    [reverse=True], which keeps the original order of equal elements too). *)
Section StableSort.
Context {A : Type}.
Variable before : nat -> nat -> bool.
Variable key : A -> nat.

Fixpoint insert_stable (x : A) (l : list A) : list A :=
  match l with
  | [] => [x]
  | y :: l' =>
      if before (key x) (key y) then x :: y :: l'
      else y :: insert_stable x l'
  end.

Fixpoint sort_stable (l : list A) : list A :=
  match l with
  | [] => []
  | x :: l' => insert_stable x (sort_stable l')
  end.
End StableSort.

Definition ascending (k1 k2 : nat) : bool := k1 <=? k2.
Definition descending (k1 k2 : nat) : bool := k2 <=? k1.

(** [collections.Counter]: a dict from keys to counts that keeps the keys in
    the order of their first insertion; an association list in that order. *)
Module Counter.

Definition t : Type := list (string * nat).

(** [c[k] = c.get(k, 0) + 1] *)
Fixpoint incr (k : string) (c : t) : t :=
  match c with
  | [] => [(k, 1)]
  | (k', n) :: c' =>
      if String.eqb k k' then (k', S n) :: c' else (k', n) :: incr k c'
  end.

(** [Counter(iterable)] *)
Definition of_list (l : list string) : t :=
  fold_left (fun c k => incr k c) l [].

(** [c.most_common()]:
    [sorted(c.items(), key=itemgetter(1), reverse=True)] *)
Definition most_common (c : t) : list (string * nat) :=
  sort_stable descending snd c.

End Counter.

(** [next(e for e in l if p e)]: the first element that satisfies [p];
    [None] stands for the [StopIteration] of an exhausted generator. *)
Definition next {A : Type} (p : A -> bool) (l : list A) : option A := find p l.

(** ** Data model *)

(** The dict of a warning, a buffer health sample or a memory reading. *)
Record entry : Type := mk_entry {
  line : nat;
  timestamp : option string;
  message : string
}.

(** The dict of an error or of a buffer event: an entry with a ['type']. *)
Record typed_entry : Type := mk_typed {
  fields :> entry;
  type : string
}.

(** The dict of the time line: ['type'] is the category, ['subtype'] the
    ['type'] of the error or buffer event it was made from. *)
Record timeline_entry : Type := mk_timeline {
  tfields :> typed_entry;
  subtype : string
}.

(** The attributes of an [AudioLogAnalyzer] object. *)
Record AudioLogAnalyzer : Type := mk_analyzer {
  log_file : string;
  events : list typed_entry;
  errors : list typed_entry;
  warnings : list entry;
  buffer_stats : list entry;
  memory_readings : list entry
}.

(** [AudioLogAnalyzer.__init__] *)
Definition __init__ (log_file_path : string) : AudioLogAnalyzer :=
  {| log_file := log_file_path; events := []; errors := []; warnings := [];
     buffer_stats := []; memory_readings := [] |}.

(** [self.errors.append(x)] and its four siblings. *)
Definition errors_append (self : AudioLogAnalyzer) (x : typed_entry) :=
  {| log_file := log_file self; events := events self;
     errors := errors self ++ [x]; warnings := warnings self;
     buffer_stats := buffer_stats self;
     memory_readings := memory_readings self |}.

Definition events_append (self : AudioLogAnalyzer) (x : typed_entry) :=
  {| log_file := log_file self; events := events self ++ [x];
     errors := errors self; warnings := warnings self;
     buffer_stats := buffer_stats self;
     memory_readings := memory_readings self |}.

Definition warnings_append (self : AudioLogAnalyzer) (x : entry) :=
  {| log_file := log_file self; events := events self;
     errors := errors self; warnings := warnings self ++ [x];
     buffer_stats := buffer_stats self;
     memory_readings := memory_readings self |}.

Definition buffer_stats_append (self : AudioLogAnalyzer) (x : entry) :=
  {| log_file := log_file self; events := events self;
     errors := errors self; warnings := warnings self;
     buffer_stats := buffer_stats self ++ [x];
     memory_readings := memory_readings self |}.

Definition memory_readings_append (self : AudioLogAnalyzer) (x : entry) :=
  {| log_file := log_file self; events := events self;
     errors := errors self; warnings := warnings self;
     buffer_stats := buffer_stats self;
     memory_readings := memory_readings self ++ [x] |}.

(** ** Parsing *)

(** [AudioLogAnalyzer._classify_error] *)
Definition _classify_error (line : string) : string :=
  let line_lower := lower line in
  if in_str "mediacodec" line_lower then "MediaCodec"
  else if in_str "audiorecord" line_lower then "AudioRecord"
  else if in_str "buffer" line_lower then "Buffer"
  else if in_str "encoder" line_lower then "Encoder"
  else "Unknown".

(** The five membership tests of [_parse_line], on the lowered line. *)
Definition is_error (line_lower : string) : bool :=
  in_str "error" line_lower || in_str "fail" line_lower.

Definition is_buffer_event (line_lower : string) : bool :=
  in_str "overflow" line_lower || in_str "underrun" line_lower.

Definition is_warning (line_lower : string) : bool :=
  in_str "warning" line_lower || in_str "warn" line_lower.

Definition is_buffer_health (line_lower : string) : bool :=
  in_str "buffer health" line_lower.

Definition is_memory (line_lower : string) : bool :=
  in_str "memory" line_lower
  && (in_str "kb" line_lower || in_str "mb" line_lower).

(** [AudioLogAnalyzer._parse_line]: the analyzer after the call. *)
Definition _parse_line (self : AudioLogAnalyzer) (line : string)
    (line_num : nat) : AudioLogAnalyzer :=
  if negb (truthy line) then self
  else
    let timestamp := Re.search Re.timestamp_pattern line in
    let line_lower := lower line in
    let self :=
      if is_error line_lower
      then errors_append self
             (mk_typed (mk_entry line_num timestamp line)
                       (_classify_error line))
      else self in
    let self :=
      if is_buffer_event line_lower
      then
        let event_type :=
          if in_str "overflow" line_lower then "overflow" else "underrun" in
        events_append self
          (mk_typed (mk_entry line_num timestamp line) event_type)
      else self in
    let self :=
      if is_warning line_lower
      then warnings_append self (mk_entry line_num timestamp line)
      else self in
    let self :=
      if is_buffer_health line_lower
      then buffer_stats_append self (mk_entry line_num timestamp line)
      else self in
    if is_memory line_lower
    then memory_readings_append self (mk_entry line_num timestamp line)
    else self.

(** The loop [for line_num, line in enumerate(f, start)] of [parse_log]. *)
Fixpoint parse_lines (self : AudioLogAnalyzer) (line_num : nat)
    (f : list string) : AudioLogAnalyzer :=
  match f with
  | [] => self
  | line :: f' =>
      parse_lines (_parse_line self (strip line) line_num) (S line_num) f'
  end.

(** [AudioLogAnalyzer.parse_log] on an existing file whose lines are [f]
    (a missing file ends the process before any line is read). *)
Definition parse_log (self : AudioLogAnalyzer) (f : list string)
  : AudioLogAnalyzer :=
  parse_lines self 1 f.

(** ** Report sections

    Each [_print_...] method is modelled by the list of the lines it prints
    (one per [print] call). *)

(** [sum(1 for e in l if e['type'] == t)] *)
Definition count_type (t : string) (l : list typed_entry) : nat :=
  List.length (filter (fun e => String.eqb (type e) t) l).

Definition dashes : string := repeat_char "-" 70.
Definition bars : string := repeat_char "=" 70.


(** The list [critical] that [_print_critical_issues] builds. *)
Definition critical_issues (self : AudioLogAnalyzer) : list string :=
  let critical := [] in
  let mediacodec_errors :=
    filter (fun e => String.eqb (type e) "MediaCodec") (errors self) in
  let critical :=
    match mediacodec_errors with
    | [] => critical
    | _ :: _ =>
        critical ++ ["MediaCodec errors detected: "
                     +++ str (List.length mediacodec_errors)]
    end in
  let overflow_count := count_type "overflow" (events self) in
  let underrun_count := count_type "underrun" (events self) in
  let critical :=
    if 0 <? overflow_count
    then critical ++ ["Buffer overflows detected: " +++ str overflow_count]
    else critical in
  let critical :=
    if 0 <? underrun_count
    then critical ++ ["Buffer underruns detected: " +++ str underrun_count]
    else critical in
  let audiorecord_errors :=
    filter (fun e => String.eqb (type e) "AudioRecord") (errors self) in
  match audiorecord_errors with
  | [] => critical
  | _ :: _ =>
      critical ++ ["AudioRecord failures detected: "
                   +++ str (List.length audiorecord_errors)]
  end.

Definition no_critical_issues_line : string :=
  "  " +++ check_mark +++ " No critical issues found".

(** [AudioLogAnalyzer._print_critical_issues] *)
Definition _print_critical_issues (self : AudioLogAnalyzer) : list string :=
  let critical := critical_issues self in
  ["CRITICAL ISSUES"; dashes]
  ++ match critical with
     | _ :: _ =>
         map (fun issue => "  " +++ cross_mark +++ " " +++ issue) critical
     | [] => [no_critical_issues_line]
     end
  ++ [""].

(** The two lines printed for one subtype of the error breakdown; [None]
    when [next] finds no error of that subtype. *)
Definition breakdown_lines (self : AudioLogAnalyzer)
    (item : string * nat) : option (list string) :=
  let '(error_type, count) := item in
  match next (fun e => String.eqb (type e) error_type) (errors self) with
  | None => None
  | Some first_occurrence =>
      Some [ "  " +++ error_type +++ ": " +++ str count;
             "    Example (line " +++ str (line first_occurrence) +++ "): "
               +++ take 70 (message first_occurrence) ]
  end.

(** Run the body of a [for] loop that may raise, collecting its lines. *)
Fixpoint for_each {A : Type} (body : A -> option (list string))
    (l : list A) : option (list string) :=
  match l with
  | [] => Some []
  | x :: l' =>
      match body x with
      | None => None
      | Some out =>
          match for_each body l' with
          | None => None
          | Some rest => Some (out ++ rest)
          end
      end
  end.

(** The pairs that the loop of [_print_error_breakdown] runs over. *)
Definition error_types (self : AudioLogAnalyzer) : list (string * nat) :=
  Counter.most_common (Counter.of_list (map type (errors self))).

(** [AudioLogAnalyzer._print_error_breakdown]; [None] is an exception. *)
Definition _print_error_breakdown (self : AudioLogAnalyzer)
  : option (list string) :=
  match errors self with
  | _ :: _ =>
      match for_each (breakdown_lines self) (error_types self) with
      | None => None
      | Some body => Some (["ERROR BREAKDOWN BY TYPE"; dashes] ++ body ++ [""])
      end
  | [] =>
      Some ["ERROR BREAKDOWN BY TYPE"; dashes;
            "  " +++ check_mark +++ " No errors found"; ""]
  end.

(** The dicts that the two loops of [_print_timeline] append to
    [all_events], for an error and for a buffer event. *)
Definition timeline_of_error (error : typed_entry) : timeline_entry :=
  mk_timeline
    (mk_typed (mk_entry (line error) (timestamp error) (message error))
              "ERROR")
    (type error).

Definition timeline_of_event (event : typed_entry) : timeline_entry :=
  mk_timeline
    (mk_typed (mk_entry (line event) (timestamp event) (message event))
              "BUFFER")
    (type event).

(** The list [all_events] of [_print_timeline], after the sort. *)
Definition all_events (self : AudioLogAnalyzer) : list timeline_entry :=
  let all_events :=
    map timeline_of_error (firstn 10 (errors self))
    ++ map timeline_of_event (firstn 10 (events self)) in
  sort_stable ascending (fun x : timeline_entry => line x) all_events.

(** One line of the time line. *)
Definition timeline_line (event : timeline_entry) : string :=
  let ts :=
    match timestamp event with
    | Some t => if truthy t then t else "N/A"
    | None => "N/A"
    end in
  "  [" +++ ts +++ "] " +++ type event +++ "(" +++ subtype event +++ "): "
    +++ take 60 (message event).

(** [AudioLogAnalyzer._print_timeline] *)
Definition _print_timeline (self : AudioLogAnalyzer) : list string :=
  let all_events := all_events self in
  ["EVENT TIMELINE"; dashes]
  ++ match all_events with
     | _ :: _ =>
         map timeline_line (firstn 15 all_events)
         ++ (if 15 <? List.length all_events
             then ["  ... and " +++ str (List.length all_events - 15)
                   +++ " more events"]
             else [])
     | [] => ["  " +++ check_mark +++ " No significant events to report"]
     end
  ++ [""].

(** The list [failures] that [_print_pass_fail] builds. *)
Definition failures (self : AudioLogAnalyzer) : list string :=
  let failures := [] in
  let failures :=
    if 0 <? List.length (errors self)
    then failures ++ ["Errors detected: " +++ str (List.length (errors self))]
    else failures in
  let overflow_count := count_type "overflow" (events self) in
  let underrun_count := count_type "underrun" (events self) in
  let failures :=
    if 0 <? overflow_count
    then failures ++ ["Buffer overflows: " +++ str overflow_count]
    else failures in
  let failures :=
    if 0 <? underrun_count
    then failures ++ ["Buffer underruns: " +++ str underrun_count]
    else failures in
  let mediacodec_errors := count_type "MediaCodec" (errors self) in
  if 0 <? mediacodec_errors
  then failures ++ ["MediaCodec errors: " +++ str mediacodec_errors]
  else failures.

(** [AudioLogAnalyzer._print_pass_fail]: the printed lines and the value
    returned ([true] for a pass). *)
Definition _print_pass_fail (self : AudioLogAnalyzer) : list string * bool :=
  let failures := failures self in
  match failures with
  | _ :: _ =>
      ([bars; "PASS/FAIL ASSESSMENT"; bars;
        "RESULT: FAIL"; ""; "Failure reasons:"]
       ++ map (fun failure => "  " +++ cross_mark +++ " " +++ failure)
              failures
       ++ [""; "Action required: Investigate and fix issues before proceeding to next test"],
       false)
  | [] =>
      ([bars; "PASS/FAIL ASSESSMENT"; bars;
        "RESULT: PASS"; ""; "All checks passed:";
        "  " +++ check_mark +++ " No errors detected";
        "  " +++ check_mark +++ " No buffer overflows";
        "  " +++ check_mark +++ " No buffer underruns";
        "  " +++ check_mark +++ " No MediaCodec errors"; "";
        "Action: Proceed to next subtask (subtask-5-2)"],
       true)
  end.

(** [AudioLogAnalyzer.save_summary]: the strings written to the output file,
    in order; [now] is the formatted time of the analysis. *)
Definition save_summary (self : AudioLogAnalyzer) (now : string)
  : list string :=
  [ "AUDIO LOG ANALYSIS SUMMARY" +++ nl;
    bars +++ nl +++ nl;
    "Log file: " +++ log_file self +++ nl;
    "Analysis time: " +++ now +++ nl +++ nl;
    "Total errors: " +++ str (List.length (errors self)) +++ nl;
    "Total warnings: " +++ str (List.length (warnings self)) +++ nl;
    "Buffer overflows: " +++ str (count_type "overflow" (events self)) +++ nl;
    "Buffer underruns: " +++ str (count_type "underrun" (events self))
       +++ nl +++ nl;
    if (List.length (errors self) =? 0) && (List.length (events self) =? 0)
    then "RESULT: PASS" +++ nl
    else "RESULT: FAIL" +++ nl ].

(** The verdict line of each of the two assessments. *)
Definition main_verdict_line (self : AudioLogAnalyzer) : string :=
  nth 3 (fst (_print_pass_fail self)) "".

Definition summary_verdict_line (self : AudioLogAnalyzer) (now : string)
  : string :=
  last (save_summary self now) "".

(** ** The remaining sections and the whole report *)

(** [l[-n:]] for a positive [n]: the last [n] elements, the whole list when
    it is shorter. *)
Definition lastn {A : Type} (n : nat) (l : list A) : list A :=
  skipn (List.length l - n) l.

(** [f"{t}"] for an optional time stamp: [None] is printed as its name. *)
Definition format_optional (t : option string) : string :=
  match t with
  | Some x => x
  | None => "None"
  end.

(** One sample line of the buffer health analysis. *)
Definition sample_line (stat : entry) : string :=
  "  [" +++ format_optional (timestamp stat) +++ "] "
    +++ take 80 (message stat).

(** [AudioLogAnalyzer._print_buffer_analysis] *)
Definition _print_buffer_analysis (self : AudioLogAnalyzer) : list string :=
  ["BUFFER HEALTH ANALYSIS"; dashes]
  ++ match buffer_stats self with
     | _ :: _ =>
         ["Total buffer health samples: "
            +++ str (List.length (buffer_stats self));
          "";
          "First 5 samples:"]
         ++ map sample_line (firstn 5 (buffer_stats self))
         ++ [""; "Last 5 samples:"]
         ++ map sample_line (lastn 5 (buffer_stats self))
     | [] => ["  No buffer health statistics found in logs"]
     end
  ++ [""].


(** ** Specification vocabulary *)

(** [occurs sub s]: [sub] is a contiguous part of [s]. *)
Definition occurs (sub s : string) : Prop :=
  exists pre post, s = pre +++ sub +++ post.

(** [contains kw l]: the line [l] contains the keyword [kw], letter case
    ignored (the keyword is written in lower case). *)
Definition contains (kw l : string) : Prop := occurs kw (lower l).

(** [enumerate(f, start)] *)
Fixpoint enumerate (start : nat) (f : list string) : list (nat * string) :=
  match f with
  | [] => []
  | x :: f' => (start, x) :: enumerate (S start) f'
  end.



(** What one call of [_parse_line] adds to each list. *)
Definition new_errors (l : string) (n : nat) : list typed_entry :=
  if truthy l && is_error (lower l)
  then [mk_typed (mk_entry n (Re.search Re.timestamp_pattern l) l)
                 (_classify_error l)]
  else [].

Definition new_events (l : string) (n : nat) : list typed_entry :=
  if truthy l && is_buffer_event (lower l)
  then [mk_typed (mk_entry n (Re.search Re.timestamp_pattern l) l)
                 (if in_str "overflow" (lower l)
                  then "overflow" else "underrun")]
  else [].

Definition new_entries (test : string -> bool) (l : string) (n : nat)
  : list entry :=
  if truthy l && test (lower l)
  then [mk_entry n (Re.search Re.timestamp_pattern l) l]
  else [].


(** The line of the AudioRecord scenario. *)
Definition scenario_line : string :=
  "12:34:56.789 ERROR: AudioRecord read failed, buffer overflow detected".

(** [no_space s]: no character of [s] is white space. *)
Fixpoint no_space (s : string) : bool :=
  match s with
  | EmptyString => true
  | String c s' => negb (isspace c) && no_space s'
  end.


(** What the loop of [parse_log] collects from the numbered lines when a
    line [l] with number [n] adds [added l n]. *)
Definition collected_by {A : Type} (added : string -> nat -> list A)
    (start : nat) (f : list string) : list A :=
  flat_map (fun p => added (strip (snd p)) (fst p)) (enumerate start f).





(** [edges_not_space kw]: [kw] starts and ends with a character that is not
    white space. *)
Fixpoint ends_not_space (kw : string) : bool :=
  match kw with
  | EmptyString => false
  | String c EmptyString => negb (isspace c)
  | String _ kw' => ends_not_space kw'
  end.

Definition edges_not_space (kw : string) : bool :=
  match kw with
  | EmptyString => false
  | String c _ => negb (isspace c) && ends_not_space kw
  end.

(** [harmless raw]: the line fires neither of the two tests that the
    verdict depends on. *)
Definition harmless (raw : string) : Prop :=
  ~ contains "error" raw /\ ~ contains "fail" raw /\
  ~ contains "overflow" raw /\ ~ contains "underrun" raw.



(** * Properties *)

(** ** Sample evaluations *)

Example lower_sample : lower "ERROR: AudioRecord" = "error: audiorecord".
Proof. reflexivity. Qed.

Example strip_sample : strip ("  a b " +++ nl) = "a b".
Proof. reflexivity. Qed.

Example str_sample : str 0 = "0" /\ str 15 = "15".
Proof. split; reflexivity. Qed.

Example search_sample :
  Re.search Re.timestamp_pattern "x 1:2 12:34:56.789 00:00:00.000"
  = Some "12:34:56.789".
Proof. reflexivity. Qed.

Example blank_lines_sample :
  let a := parse_log (__init__ "a.log")
             [ "read error" +++ nl; "   " +++ nl; nl;
               "WARN: buffer underrun" +++ nl ] in
  map (fun e : typed_entry => line e) (errors a) = [1]
  /\ map (fun e : typed_entry => line e) (events a) = [4]
  /\ map line (warnings a) = [4]
  /\ map message (warnings a) = ["WARN: buffer underrun"].
Proof. cbv zeta. repeat split; reflexivity. Qed.

Example breakdown_sample :
  _print_error_breakdown
    (parse_log (__init__ "a.log")
       [ "error in buffer"; "encoder failed"; ""; "Encoder error";
         "mediacodec fail"; "Error: MediaCodec"; "failed" ])
  = Some [ "ERROR BREAKDOWN BY TYPE"; dashes;
           "  Encoder: 2"; "    Example (line 2): encoder failed";
           "  MediaCodec: 2"; "    Example (line 5): mediacodec fail";
           "  Buffer: 1"; "    Example (line 1): error in buffer";
           "  Unknown: 1"; "    Example (line 7): failed"; "" ].
Proof. reflexivity. Qed.

Example timeline_sample :
  _print_timeline
    (parse_log (__init__ "a.log")
       [ "underrun"; "overflow error"; "fail" ])
  = [ "EVENT TIMELINE"; dashes;
      "  [N/A] BUFFER(underrun): underrun";
      "  [N/A] ERROR(Unknown): overflow error";
      "  [N/A] BUFFER(overflow): overflow error";
      "  [N/A] ERROR(Unknown): fail"; "" ].
Proof. reflexivity. Qed.

(** ** Strings *)

Lemma append_nil_r (s : string) : s +++ "" = s.
Proof. induction s as [|c s IH]; simpl; [reflexivity | now rewrite IH]. Qed.

Lemma append_assoc (a b c : string) : (a +++ b) +++ c = a +++ b +++ c.
Proof. induction a as [|x a IH]; simpl; [reflexivity | now rewrite IH]. Qed.

Lemma startswith_spec (s p : string) :
  startswith s p = true <-> exists post, s = p +++ post.
Proof.
  revert s. induction p as [|c p IH]; intros s; simpl.
  - split; [intros _; now exists s | reflexivity].
  - destruct s as [|d s].
    + split; [discriminate | intros [post H]; discriminate].
    + rewrite andb_true_iff, Ascii.eqb_eq, IH. split.
      * intros [-> [post ->]]. now exists post.
      * intros [post H]. inversion H. eauto.
Qed.

(** The membership test of Python is the substring relation. *)
Lemma in_str_spec (sub s : string) : in_str sub s = true <-> occurs sub s.
Proof.
  unfold occurs. induction s as [|c s IH].
  - cbn [in_str]. destruct (startswith "" sub) eqn:Hp.
    + split; [intros _ | reflexivity].
      apply startswith_spec in Hp. destruct Hp as [post Hp].
      exists "", post. exact Hp.
    + split; [discriminate |].
      intros (pre & post & H). destruct pre; [| discriminate].
      simpl in H.
      assert (startswith "" sub = true) by (apply startswith_spec; eauto).
      congruence.
  - cbn [in_str]. destruct (startswith (String c s) sub) eqn:Hp.
    + split; [intros _ | reflexivity].
      apply startswith_spec in Hp. destruct Hp as [post Hp].
      exists "", post. exact Hp.
    + rewrite IH. split.
      * intros (pre & post & H). exists (String c pre), post.
        simpl. now rewrite H.
      * intros (pre & post & H). destruct pre as [|d pre].
        -- simpl in H.
           assert (startswith (String c s) sub = true)
             by (apply startswith_spec; eauto).
           congruence.
        -- simpl in H. inversion H. eauto.
Qed.

Lemma in_str_contains (kw l : string) :
  in_str kw (lower l) = true <-> contains kw l.
Proof. apply in_str_spec. Qed.

Lemma in_str_false_contains (kw l : string) :
  in_str kw (lower l) = false <-> ~ contains kw l.
Proof.
  rewrite <- in_str_contains. destruct (in_str kw (lower l)); split;
    congruence.
Qed.

Lemma in_str_empty (sub : string) :
  in_str sub "" = true -> sub = "".
Proof. destruct sub; [reflexivity | discriminate]. Qed.

Lemma lower_truthy (s : string) : truthy (lower s) = truthy s.
Proof. destruct s; reflexivity. Qed.

Lemma in_str_truthy (sub s : string) :
  truthy sub = true -> in_str sub s = true -> truthy s = true.
Proof.
  intros Hs H. destruct s; [| reflexivity].
  apply in_str_empty in H. subst. discriminate.
Qed.

(** ** One line *)

Ltac parse_line_cases l :=
  unfold _parse_line, new_errors, new_events, new_entries;
  destruct (truthy l); cbn [negb andb];
  [ destruct (is_error (lower l)), (is_buffer_event (lower l)),
             (is_warning (lower l)), (is_buffer_health (lower l)),
             (is_memory (lower l));
    cbn; rewrite ?app_nil_r; reflexivity
  | rewrite ?app_nil_r; reflexivity ].

Lemma errors_parse_line self l n :
  errors (_parse_line self l n) = errors self ++ new_errors l n.
Proof. parse_line_cases l. Qed.

Lemma events_parse_line self l n :
  events (_parse_line self l n) = events self ++ new_events l n.
Proof. parse_line_cases l. Qed.




Lemma log_file_parse_line self l n :
  log_file (_parse_line self l n) = log_file self.
Proof. parse_line_cases l. Qed.

Lemma is_error_truthy l : is_error (lower l) = true -> truthy l = true.
Proof.
  unfold is_error. rewrite orb_true_iff, <- lower_truthy.
  intros [H|H]; eapply in_str_truthy; try exact H; reflexivity.
Qed.

Lemma is_buffer_event_truthy l :
  is_buffer_event (lower l) = true -> truthy l = true.
Proof.
  unfold is_buffer_event. rewrite orb_true_iff, <- lower_truthy.
  intros [H|H]; eapply in_str_truthy; try exact H; reflexivity.
Qed.

(** ** The whole file *)

(** Every list of the analyzer grows, line after line, by what
    [_parse_line] adds for that line and its number. *)
Section ParseLines.
Context {A : Type}.
Variable proj : AudioLogAnalyzer -> list A.
Variable added : string -> nat -> list A.
Hypothesis proj_parse_line :
  forall self l n, proj (_parse_line self l n) = proj self ++ added l n.

Lemma proj_parse_lines f : forall self start,
  proj (parse_lines self start f)
  = proj self
    ++ flat_map (fun p => added (strip (snd p)) (fst p))
                (enumerate start f).
Proof.
  induction f as [|x f IH]; intros self start; simpl.
  - now rewrite app_nil_r.
  - rewrite IH, proj_parse_line, <- app_assoc. reflexivity.
Qed.
End ParseLines.

(** What the loop collects when each line adds at most one entry, stamped
    with the number and the text of the line. *)
Section Collected.
Context {A : Type}.
Variable ent : A -> entry.
Variable added : string -> nat -> list A.
Hypothesis added_stamp :
  forall l n x, In x (added l n) ->
                line (ent x) = n /\ message (ent x) = l /\ l <> "".
Hypothesis added_one : forall l n, List.length (added l n) <= 1.


End Collected.








(** The lists of a parse result, as functions of the numbered lines. *)
Lemma errors_parse_log p f :
  errors (parse_log (__init__ p) f)
  = flat_map (fun q => new_errors (strip (snd q)) (fst q)) (enumerate 1 f).
Proof.
  unfold parse_log.
  now rewrite (proj_parse_lines errors new_errors errors_parse_line).
Qed.

Lemma events_parse_log p f :
  events (parse_log (__init__ p) f)
  = flat_map (fun q => new_events (strip (snd q)) (fst q)) (enumerate 1 f).
Proof.
  unfold parse_log.
  now rewrite (proj_parse_lines events new_events events_parse_line).
Qed.






(** ** Classification of one line *)

(** C3.  A line that contains "error" or "fail" (letter case ignored) adds
    exactly one error, whose subtype is given by the first rule that
    matches, in this order: "mediacodec" gives MediaCodec, else
    "audiorecord" gives AudioRecord, else "buffer" gives Buffer, else
    "encoder" gives Encoder, else Unknown. *)
Theorem error_subtype_priority (self : AudioLogAnalyzer) (l : string)
    (n : nat) :
  contains "error" l \/ contains "fail" l ->
  exists e : typed_entry,
    errors (_parse_line self l n) = errors self ++ [e] /\
    line e = n /\ message e = l /\
    (contains "mediacodec" l -> type e = "MediaCodec") /\
    (~ contains "mediacodec" l -> contains "audiorecord" l ->
     type e = "AudioRecord") /\
    (~ contains "mediacodec" l -> ~ contains "audiorecord" l ->
     contains "buffer" l -> type e = "Buffer") /\
    (~ contains "mediacodec" l -> ~ contains "audiorecord" l ->
     ~ contains "buffer" l -> contains "encoder" l -> type e = "Encoder") /\
    (~ contains "mediacodec" l -> ~ contains "audiorecord" l ->
     ~ contains "buffer" l -> ~ contains "encoder" l -> type e = "Unknown").
Proof.
  intros H.
  assert (He : is_error (lower l) = true).
  { unfold is_error. apply orb_true_iff.
    destruct H as [H|H]; [left | right]; now apply in_str_contains. }
  rewrite errors_parse_line. unfold new_errors.
  rewrite (is_error_truthy _ He), He. cbn [andb].
  eexists. split; [reflexivity|]. cbn [line message type fields].
  split; [reflexivity|]. split; [reflexivity|].
  unfold _classify_error.
  destruct (in_str "mediacodec" (lower l)) eqn:H1;
    [apply in_str_contains in H1 | apply in_str_false_contains in H1];
  (destruct (in_str "audiorecord" (lower l)) eqn:H2;
    [apply in_str_contains in H2 | apply in_str_false_contains in H2]);
  (destruct (in_str "buffer" (lower l)) eqn:H3;
    [apply in_str_contains in H3 | apply in_str_false_contains in H3]);
  (destruct (in_str "encoder" (lower l)) eqn:H4;
    [apply in_str_contains in H4 | apply in_str_false_contains in H4]);
  repeat split; intros; solve [reflexivity | contradiction].
Qed.

Lemma error_subtype_priority_witness :
  let l := "E/MediaCodec: buffer error in encoder" in
  (contains "error" l \/ contains "fail" l) /\
  exists e : typed_entry,
    errors (_parse_line (__init__ "a.log") l 3) = [] ++ [e] /\
    line e = 3 /\ message e = l /\
    (contains "mediacodec" l -> type e = "MediaCodec") /\
    (~ contains "mediacodec" l -> contains "audiorecord" l ->
     type e = "AudioRecord") /\
    (~ contains "mediacodec" l -> ~ contains "audiorecord" l ->
     contains "buffer" l -> type e = "Buffer") /\
    (~ contains "mediacodec" l -> ~ contains "audiorecord" l ->
     ~ contains "buffer" l -> contains "encoder" l -> type e = "Encoder") /\
    (~ contains "mediacodec" l -> ~ contains "audiorecord" l ->
     ~ contains "buffer" l -> ~ contains "encoder" l -> type e = "Unknown").
Proof.
  cbv zeta. split.
  - left. exists "e/mediacodec: buffer ", " in encoder". reflexivity.
  - apply (error_subtype_priority (__init__ "a.log")
             "E/MediaCodec: buffer error in encoder" 3).
    left. exists "e/mediacodec: buffer ", " in encoder". reflexivity.
Defined.

(** C4.  A line that contains "overflow" or "underrun" (letter case
    ignored) adds exactly one buffer event; its subtype is "overflow" when
    "overflow" is present, also next to "underrun", and "underrun"
    otherwise. *)
Theorem buffer_event_subtype (self : AudioLogAnalyzer) (l : string)
    (n : nat) :
  contains "overflow" l \/ contains "underrun" l ->
  exists e : typed_entry,
    events (_parse_line self l n) = events self ++ [e] /\
    line e = n /\ message e = l /\
    (contains "overflow" l -> type e = "overflow") /\
    (~ contains "overflow" l -> type e = "underrun").
Proof.
  intros H.
  assert (He : is_buffer_event (lower l) = true).
  { unfold is_buffer_event. apply orb_true_iff.
    destruct H as [H|H]; [left | right]; now apply in_str_contains. }
  rewrite events_parse_line. unfold new_events.
  rewrite (is_buffer_event_truthy _ He), He. cbn [andb].
  eexists. split; [reflexivity|]. cbn [line message type fields].
  split; [reflexivity|]. split; [reflexivity|].
  destruct (in_str "overflow" (lower l)) eqn:H1;
    [apply in_str_contains in H1 | apply in_str_false_contains in H1];
    split; intros; solve [reflexivity | contradiction].
Qed.

Lemma buffer_event_subtype_witness :
  let l := "W AudioTrack: underrun after ring buffer OVERFLOW" in
  (contains "overflow" l \/ contains "underrun" l) /\
  exists e : typed_entry,
    events (_parse_line (__init__ "a.log") l 7) = [] ++ [e] /\
    line e = 7 /\ message e = l /\
    (contains "overflow" l -> type e = "overflow") /\
    (~ contains "overflow" l -> type e = "underrun").
Proof.
  cbv zeta. split.
  - right. exists "w audiotrack: ", " after ring buffer overflow".
    reflexivity.
  - apply (buffer_event_subtype (__init__ "a.log")
             "W AudioTrack: underrun after ring buffer OVERFLOW" 7).
    right. exists "w audiotrack: ", " after ring buffer overflow".
    reflexivity.
Defined.

(** ** The two verdicts *)

Lemma failures_parts (self : AudioLogAnalyzer) :
  failures self
  = (if 0 <? List.length (errors self)
     then ["Errors detected: " +++ str (List.length (errors self))]
     else [])
    ++ (if 0 <? count_type "overflow" (events self)
        then ["Buffer overflows: "
              +++ str (count_type "overflow" (events self))]
        else [])
    ++ (if 0 <? count_type "underrun" (events self)
        then ["Buffer underruns: "
              +++ str (count_type "underrun" (events self))]
        else [])
    ++ (if 0 <? count_type "MediaCodec" (errors self)
        then ["MediaCodec errors: "
              +++ str (count_type "MediaCodec" (errors self))]
        else []).
Proof.
  unfold failures.
  destruct (0 <? List.length (errors self)),
           (0 <? count_type "overflow" (events self)),
           (0 <? count_type "underrun" (events self)),
           (0 <? count_type "MediaCodec" (errors self)); reflexivity.
Qed.

Lemma pass_fail_value (self : AudioLogAnalyzer) :
  snd (_print_pass_fail self)
  = match failures self with [] => true | _ :: _ => false end.
Proof. unfold _print_pass_fail. now destruct (failures self). Qed.

Lemma main_verdict_line_value (self : AudioLogAnalyzer) :
  main_verdict_line self
  = if snd (_print_pass_fail self) then "RESULT: PASS" else "RESULT: FAIL".
Proof.
  unfold main_verdict_line, _print_pass_fail.
  now destruct (failures self).
Qed.

(** C1.  The main verdict is Fail exactly when the error count, the overflow
    count, the underrun count or the MediaCodec error count is positive, and
    Pass otherwise; the list of failure reasons has one entry for each of
    the four conditions that holds, all of them and in that order, and each
    reason is printed. *)
Theorem main_verdict_rule (self : AudioLogAnalyzer) :
  let e := List.length (errors self) in
  let o := count_type "overflow" (events self) in
  let u := count_type "underrun" (events self) in
  let m := count_type "MediaCodec" (errors self) in
  (snd (_print_pass_fail self) = false <-> 0 < e \/ 0 < o \/ 0 < u \/ 0 < m)
  /\ (snd (_print_pass_fail self) = true <->
      e = 0 /\ o = 0 /\ u = 0 /\ m = 0)
  /\ failures self
     = (if 0 <? e then ["Errors detected: " +++ str e] else [])
       ++ (if 0 <? o then ["Buffer overflows: " +++ str o] else [])
       ++ (if 0 <? u then ["Buffer underruns: " +++ str u] else [])
       ++ (if 0 <? m then ["MediaCodec errors: " +++ str m] else [])
  /\ main_verdict_line self
     = (if snd (_print_pass_fail self)
        then "RESULT: PASS" else "RESULT: FAIL")
  /\ Forall (fun reason =>
               In ("  " +++ cross_mark +++ " " +++ reason)
                  (fst (_print_pass_fail self)))
            (failures self).
Proof.
  cbv zeta.
  split; [| split; [| split; [apply failures_parts | split]]].
  - rewrite pass_fail_value, failures_parts.
    destruct (Nat.ltb_spec 0 (List.length (errors self))),
             (Nat.ltb_spec 0 (count_type "overflow" (events self))),
             (Nat.ltb_spec 0 (count_type "underrun" (events self))),
             (Nat.ltb_spec 0 (count_type "MediaCodec" (errors self)));
      cbn; split; intros; try reflexivity; try discriminate; lia.
  - rewrite pass_fail_value, failures_parts.
    destruct (Nat.ltb_spec 0 (List.length (errors self))),
             (Nat.ltb_spec 0 (count_type "overflow" (events self))),
             (Nat.ltb_spec 0 (count_type "underrun" (events self))),
             (Nat.ltb_spec 0 (count_type "MediaCodec" (errors self)));
      cbn; split; intros; try reflexivity; try discriminate; lia.
  - apply main_verdict_line_value.
  - unfold _print_pass_fail. destruct (failures self) as [|r rs] eqn:Hf.
    + constructor.
    + apply Forall_forall. intros reason Hin. cbn [fst].
      apply in_or_app. right. apply in_or_app. left.
      apply in_map_iff. exists reason. split; [reflexivity | exact Hin].
Qed.

Lemma count_type_le t l : count_type t l <= List.length l.
Proof. unfold count_type. apply filter_length_le. Qed.

Lemma count_overflow_underrun (l : list typed_entry) :
  Forall (fun e => type e = "overflow" \/ type e = "underrun") l ->
  List.length l = count_type "overflow" l + count_type "underrun" l.
Proof.
  unfold count_type. induction 1 as [|e l He _ IH]; [reflexivity|].
  cbn [filter List.length].
  destruct He as [-> | ->]; cbn; rewrite IH; lia.
Qed.

Lemma new_events_types l n :
  Forall (fun e => type e = "overflow" \/ type e = "underrun")
         (new_events l n).
Proof.
  unfold new_events. destruct (_ && _); [| constructor].
  constructor; [| constructor]. cbn.
  destruct (in_str "overflow" (lower l)); auto.
Qed.

(** Every buffer event of a parse result is an overflow or an underrun. *)
Lemma events_types_parse_log p f :
  Forall (fun e => type e = "overflow" \/ type e = "underrun")
         (events (parse_log (__init__ p) f)).
Proof.
  rewrite events_parse_log. apply Forall_flat_map.
  apply Forall_forall. intros q _. apply new_events_types.
Qed.

(** C2.  On every parse result the verdict written by [save_summary] (Pass
    exactly when there is no error and no buffer event) is the verdict of
    the pass/fail assessment: the MediaCodec errors are among the errors,
    and every buffer event is an overflow or an underrun. *)
Theorem summary_verdict_agrees (p : string) (f : list string)
    (now : string) :
  let a := parse_log (__init__ p) f in
  summary_verdict_line a now = main_verdict_line a +++ nl
  /\ (summary_verdict_line a now = "RESULT: PASS" +++ nl <->
      snd (_print_pass_fail a) = true)
  /\ (summary_verdict_line a now = "RESULT: FAIL" +++ nl <->
      snd (_print_pass_fail a) = false)
  /\ count_type "MediaCodec" (errors a) <= List.length (errors a)
  /\ List.length (events a)
     = count_type "overflow" (events a) + count_type "underrun" (events a).
Proof.
  cbv zeta. set (a := parse_log (__init__ p) f).
  pose proof (count_type_le "MediaCodec" (errors a)) as Hm.
  pose proof (count_overflow_underrun _ (events_types_parse_log p f)) as Hev.
  fold a in Hev.
  assert (Hs : summary_verdict_line a now
               = if (List.length (errors a) =? 0)
                    && (List.length (events a) =? 0)
                 then "RESULT: PASS" +++ nl else "RESULT: FAIL" +++ nl)
    by reflexivity.
  assert (Hv : snd (_print_pass_fail a)
               = (List.length (errors a) =? 0)
                 && (List.length (events a) =? 0)).
  { rewrite pass_fail_value, failures_parts.
    destruct (Nat.ltb_spec 0 (List.length (errors a))),
             (Nat.ltb_spec 0 (count_type "overflow" (events a))),
             (Nat.ltb_spec 0 (count_type "underrun" (events a))),
             (Nat.ltb_spec 0 (count_type "MediaCodec" (errors a)));
      cbn [app];
      destruct (Nat.eqb_spec (List.length (errors a)) 0),
               (Nat.eqb_spec (List.length (events a)) 0);
      cbn [andb]; try reflexivity; lia. }
  rewrite main_verdict_line_value, Hs, Hv.
  destruct ((List.length (errors a) =? 0) && (List.length (events a) =? 0));
    repeat split; intros; try reflexivity; try discriminate;
    try assumption.
Qed.

(** ** Scenario *)

(** C8.  Parsing the single line
    [12:34:56.789 ERROR: AudioRecord read failed, buffer overflow detected]
    (with or without its line feed) gives exactly one error, with time
    stamp "12:34:56.789" and subtype "AudioRecord", and exactly one buffer
    event, of subtype "overflow"; the error count and the overflow count are
    1, and the main verdict is Fail with the reasons "Errors detected: 1"
    and "Buffer overflows: 1". *)
Theorem scenario_audiorecord_overflow (p : string) :
  let a := parse_log (__init__ p) [scenario_line] in
  errors a = [mk_typed (mk_entry 1 (Some "12:34:56.789") scenario_line)
                       "AudioRecord"]
  /\ events a = [mk_typed (mk_entry 1 (Some "12:34:56.789") scenario_line)
                          "overflow"]
  /\ List.length (errors a) = 1
  /\ count_type "overflow" (events a) = 1
  /\ snd (_print_pass_fail a) = false
  /\ main_verdict_line a = "RESULT: FAIL"
  /\ failures a = ["Errors detected: 1"; "Buffer overflows: 1"]
  /\ parse_log (__init__ p) [scenario_line +++ nl] = a.
Proof.
  cbv zeta. repeat split; reflexivity.
Qed.

(** ** Stripping keeps the keywords *)

Lemma isspace_lower_char c : isspace (lower_char c) = isspace c.
Proof. destruct c as [[] [] [] [] [] [] [] []]; reflexivity. Qed.

Lemma lower_lstrip s : lower (lstrip s) = lstrip (lower s).
Proof.
  induction s as [|c s IH]; [reflexivity|].
  cbn [lstrip lower]. rewrite isspace_lower_char.
  destruct (isspace c); [exact IH | reflexivity].
Qed.

Lemma lower_rstrip s : lower (rstrip s) = rstrip (lower s).
Proof.
  induction s as [|c s IH]; [reflexivity|].
  cbn [rstrip lower]. rewrite <- IH, isspace_lower_char.
  destruct (rstrip s); cbn [lower]; [| reflexivity].
  destruct (isspace c); reflexivity.
Qed.

Lemma lower_strip s : lower (strip s) = strip (lower s).
Proof. unfold strip. now rewrite lower_rstrip, lower_lstrip. Qed.

Lemma lstrip_suffix s : exists w, s = w +++ lstrip s.
Proof.
  induction s as [|c s [w IH]]; [now exists ""|].
  cbn [lstrip]. destruct (isspace c).
  - exists (String c w). cbn. now rewrite <- IH.
  - now exists "".
Qed.

Lemma rstrip_prefix s : exists w, s = rstrip s +++ w.
Proof.
  induction s as [|c s [w IH]]; [now exists ""|].
  cbn [rstrip]. destruct (rstrip s) as [|d r] eqn:Hr.
  - destruct (isspace c).
    + exists (String c s). reflexivity.
    + exists w. cbn in *. now rewrite <- IH.
  - exists w. cbn in *. now rewrite <- IH.
Qed.

Lemma occurs_strip sub s : occurs sub (strip s) -> occurs sub s.
Proof.
  unfold strip. intros (pre & post & H).
  destruct (lstrip_suffix s) as [w1 H1].
  destruct (rstrip_prefix (lstrip s)) as [w2 H2].
  exists (w1 +++ pre), (post +++ w2).
  rewrite H1 at 1. rewrite H2 at 1. rewrite H.
  now rewrite !append_assoc.
Qed.

Lemma rstrip_cons_nonspace c s :
  isspace c = false -> rstrip (String c s) = String c (rstrip s).
Proof. intros Hc. cbn [rstrip]. rewrite Hc. now destruct (rstrip s). Qed.

Lemma rstrip_cons_nonempty c s :
  rstrip s <> "" -> rstrip (String c s) = String c (rstrip s).
Proof. intros Hne. cbn [rstrip]. now destruct (rstrip s). Qed.

Lemma rstrip_keyword kw post :
  no_space kw = true -> rstrip (kw +++ post) = kw +++ rstrip post.
Proof.
  induction kw as [|c kw IH]; [reflexivity|].
  cbn [no_space]. rewrite andb_true_iff, negb_true_iff. intros [Hc Hk].
  cbn [append]. rewrite rstrip_cons_nonspace by exact Hc.
  now rewrite IH.
Qed.

Lemma rstrip_keeps pre kw post :
  no_space kw = true -> kw <> "" ->
  rstrip (pre +++ kw +++ post) = pre +++ kw +++ rstrip post.
Proof.
  intros Hk Hne. induction pre as [|c pre IH].
  - cbn [append]. apply rstrip_keyword, Hk.
  - cbn [append]. rewrite rstrip_cons_nonempty; [now rewrite IH|].
    rewrite IH. destruct pre; destruct kw; cbn; congruence.
Qed.

Lemma lstrip_keeps pre kw post :
  no_space kw = true -> kw <> "" ->
  exists pre', lstrip (pre +++ kw +++ post) = pre' +++ kw +++ post.
Proof.
  intros Hk Hne. induction pre as [|c pre [pre' IH]].
  - exists "". destruct kw as [|c kw]; [contradiction|].
    cbn [no_space] in Hk. apply andb_true_iff in Hk.
    destruct Hk as [Hc _]. apply negb_true_iff in Hc.
    cbn. now rewrite Hc.
  - cbn [append lstrip]. destruct (isspace c).
    + now exists pre'.
    + now exists (String c pre).
Qed.

(** A keyword without white space occurs in a line exactly when it occurs
    in the stripped line. *)
Lemma occurs_strip_keyword kw s :
  no_space kw = true -> kw <> "" -> occurs kw s -> occurs kw (strip s).
Proof.
  intros Hk Hne (pre & post & ->). unfold strip.
  destruct (lstrip_keeps pre kw post Hk Hne) as [pre' ->].
  rewrite rstrip_keeps by assumption. now exists pre', (rstrip post).
Qed.

Lemma contains_strip kw raw : contains kw (strip raw) -> contains kw raw.
Proof. unfold contains. rewrite lower_strip. apply occurs_strip. Qed.

Lemma contains_strip_keyword kw raw :
  no_space kw = true -> kw <> "" ->
  contains kw raw -> contains kw (strip raw).
Proof.
  unfold contains. rewrite lower_strip. now apply occurs_strip_keyword.
Qed.

(** ** Files without any match *)

Ltac absent_keyword :=
  apply in_str_false_contains; intros Hc; apply contains_strip in Hc;
  tauto.




Ltac keyword_absent_here :=
  apply in_str_false_contains; reflexivity.


(** ** A failing file without a critical issue *)

(** C10.  A file of one line that contains "error" but none of
    "mediacodec", "audiorecord", "overflow" and "underrun" gets the verdict
    Fail while the critical issues section prints its "no critical issues"
    line: its one error is of subtype Buffer, Encoder or Unknown, which
    the critical issues check does not look at but the error count of the
    verdict includes. *)
Theorem fail_without_critical_issue (p raw : string) :
  contains "error" raw ->
  ~ contains "mediacodec" raw -> ~ contains "audiorecord" raw ->
  ~ contains "overflow" raw -> ~ contains "underrun" raw ->
  let a := parse_log (__init__ p) [raw] in
  critical_issues a = []
  /\ _print_critical_issues a
     = ["CRITICAL ISSUES"; dashes; no_critical_issues_line; ""]
  /\ snd (_print_pass_fail a) = false
  /\ main_verdict_line a = "RESULT: FAIL"
  /\ failures a = ["Errors detected: 1"]
  /\ exists e : typed_entry,
       errors a = [e] /\
       (type e = "Buffer" \/ type e = "Encoder" \/ type e = "Unknown").
Proof.
  intros He Hmc Har Hov Hun. cbv zeta.
  set (a := parse_log (__init__ p) [raw]).
  set (l := strip raw).
  assert (E1 : is_error (lower l) = true).
  { unfold is_error. apply orb_true_iff. left.
    apply in_str_contains, contains_strip_keyword;
      [reflexivity | discriminate | exact He]. }
  assert (N1 : in_str "mediacodec" (lower l) = false) by absent_keyword.
  assert (N2 : in_str "audiorecord" (lower l) = false) by absent_keyword.
  assert (N3 : in_str "overflow" (lower l) = false) by absent_keyword.
  assert (N4 : in_str "underrun" (lower l) = false) by absent_keyword.
  assert (Hev : events a = []).
  { unfold a, parse_log. cbn [parse_lines]. rewrite events_parse_line.
    unfold new_events, is_buffer_event. fold l. rewrite N3, N4.
    now rewrite andb_false_r. }
  assert (Herr : exists t,
             errors a
             = [mk_typed (mk_entry 1 (Re.search Re.timestamp_pattern l) l) t]
             /\ (t = "Buffer" \/ t = "Encoder" \/ t = "Unknown")).
  { exists (_classify_error l). split.
    - unfold a, parse_log. cbn [parse_lines]. rewrite errors_parse_line.
      unfold new_errors. fold l.
      now rewrite (is_error_truthy _ E1), E1.
    - unfold _classify_error. rewrite N1, N2.
      destruct (in_str "buffer" (lower l)); [auto|].
      destruct (in_str "encoder" (lower l)); auto. }
  destruct Herr as (t & Herr & Ht).
  assert (Hc : critical_issues a = []).
  { unfold critical_issues. rewrite Herr, Hev.
    destruct Ht as [-> | [-> | ->]]; reflexivity. }
  assert (Hf : failures a = ["Errors detected: 1"]).
  { unfold failures. rewrite Herr, Hev.
    destruct Ht as [-> | [-> | ->]]; reflexivity. }
  split; [exact Hc|].
  split; [unfold _print_critical_issues; now rewrite Hc|].
  split; [now rewrite pass_fail_value, Hf|].
  split; [now rewrite main_verdict_line_value, pass_fail_value, Hf|].
  split; [exact Hf|].
  eexists. split; [exact Herr | exact Ht].
Qed.

Lemma fail_without_critical_issue_witness :
  let raw := "E/LivePush: encoder error while flushing" +++ nl in
  contains "error" raw /\
  ~ contains "mediacodec" raw /\ ~ contains "audiorecord" raw /\
  ~ contains "overflow" raw /\ ~ contains "underrun" raw /\
  let a := parse_log (__init__ "audio-health.log") [raw] in
  critical_issues a = []
  /\ _print_critical_issues a
     = ["CRITICAL ISSUES"; dashes; no_critical_issues_line; ""]
  /\ snd (_print_pass_fail a) = false
  /\ main_verdict_line a = "RESULT: FAIL"
  /\ failures a = ["Errors detected: 1"]
  /\ exists e : typed_entry,
       errors a = [e] /\
       (type e = "Buffer" \/ type e = "Encoder" \/ type e = "Unknown").
Proof.
  cbv zeta.
  assert (He : contains "error"
                 ("E/LivePush: encoder error while flushing" +++ nl))
    by (apply in_str_contains; reflexivity).
  assert (H1 : ~ contains "mediacodec"
                 ("E/LivePush: encoder error while flushing" +++ nl))
    by keyword_absent_here.
  assert (H2 : ~ contains "audiorecord"
                 ("E/LivePush: encoder error while flushing" +++ nl))
    by keyword_absent_here.
  assert (H3 : ~ contains "overflow"
                 ("E/LivePush: encoder error while flushing" +++ nl))
    by keyword_absent_here.
  assert (H4 : ~ contains "underrun"
                 ("E/LivePush: encoder error while flushing" +++ nl))
    by keyword_absent_here.
  repeat (split; [assumption|]).
  exact (fail_without_critical_issue "audio-health.log"
           ("E/LivePush: encoder error while flushing" +++ nl)
           He H1 H2 H3 H4).
Defined.

(** ** The stable sort *)




Section StableSortFacts.
Context {A : Type}.
Variable before : nat -> nat -> bool.
Variable key : A -> nat.
Hypothesis before_refl : forall a, before a a = true.
Hypothesis before_antisym :
  forall a b, before a b = true -> before b a = false \/ a = b.
Hypothesis before_trans :
  forall a b c, before a b = true -> before b c = true ->
                before a c = true.

Lemma insert_stable_perm x l :
  Permutation (insert_stable before key x l) (x :: l).
Proof.
  induction l as [|y l IH]; cbn; [reflexivity|].
  destruct (before (key x) (key y)); [reflexivity|].
  rewrite IH. apply perm_swap.
Qed.

Lemma sort_stable_perm l : Permutation (sort_stable before key l) l.
Proof.
  induction l as [|x l IH]; cbn; [constructor|].
  rewrite insert_stable_perm. now constructor.
Qed.



Variable pos : A -> A -> Prop.


End StableSortFacts.




Lemma descending_refl a : descending a a = true.
Proof. apply Nat.leb_refl. Qed.



(** ** The event time line *)


(** ** The counter of error subtypes *)









Lemma of_list_snoc l k :
  Counter.of_list (l ++ [k]) = Counter.incr k (Counter.of_list l).
Proof. unfold Counter.of_list. now rewrite fold_left_app. Qed.







(** ** The error breakdown *)





(** * Further properties of the analyzer *)

(** ** Time stamps *)











(** ** Classification does not depend on the surrounding white space *)

Lemma rstrip_keyword_edge kw : forall post,
  ends_not_space kw = true -> rstrip (kw +++ post) = kw +++ rstrip post.
Proof.
  induction kw as [|c kw IH]; intros post; [discriminate|].
  destruct kw as [|d kw].
  - cbn [ends_not_space]. rewrite negb_true_iff. intros Hc.
    cbn [append]. now apply rstrip_cons_nonspace.
  - intros He. change (ends_not_space (String d kw) = true) in He.
    change (String c (String d kw) +++ post)
      with (String c (String d kw +++ post)).
    rewrite rstrip_cons_nonempty; rewrite (IH post He);
      [reflexivity | discriminate].
Qed.

Lemma rstrip_keeps_edge pre kw post :
  ends_not_space kw = true ->
  rstrip (pre +++ kw +++ post) = pre +++ kw +++ rstrip post.
Proof.
  intros He. induction pre as [|c pre IH].
  - cbn [append]. now apply rstrip_keyword_edge.
  - cbn [append]. rewrite rstrip_cons_nonempty; [now rewrite IH|].
    rewrite IH. destruct pre; destruct kw; cbn; try discriminate.
Qed.

Lemma lstrip_keeps_edge pre kw post :
  edges_not_space kw = true ->
  exists pre', lstrip (pre +++ kw +++ post) = pre' +++ kw +++ post.
Proof.
  intros He. induction pre as [|c pre [pre' IH]].
  - exists "". destruct kw as [|c kw]; [discriminate|].
    unfold edges_not_space in He. apply andb_true_iff in He.
    destruct He as [Hc _]. apply negb_true_iff in Hc.
    cbn. now rewrite Hc.
  - cbn [append lstrip]. destruct (isspace c).
    + now exists pre'.
    + now exists (String c pre).
Qed.

Lemma edges_ends kw : edges_not_space kw = true -> ends_not_space kw = true.
Proof.
  destruct kw; [discriminate|]. unfold edges_not_space.
  rewrite andb_true_iff. tauto.
Qed.

Lemma occurs_strip_edge kw s :
  edges_not_space kw = true -> occurs kw s -> occurs kw (strip s).
Proof.
  intros He (pre & post & ->). unfold strip.
  destruct (lstrip_keeps_edge pre kw post He) as [pre' ->].
  rewrite rstrip_keeps_edge by now apply edges_ends.
  now exists pre', (rstrip post).
Qed.

(** A keyword that neither starts nor ends with white space is found in
    the stripped line exactly when it is found in the raw line. *)
Lemma in_str_strip kw raw :
  edges_not_space kw = true ->
  in_str kw (lower (strip raw)) = in_str kw (lower raw).
Proof.
  intros He.
  destruct (in_str kw (lower raw)) eqn:Hraw.
  - apply in_str_spec. rewrite lower_strip.
    apply occurs_strip_edge; [exact He | now apply in_str_spec].
  - destruct (in_str kw (lower (strip raw))) eqn:Hs; [| reflexivity].
    apply in_str_contains, contains_strip, in_str_contains in Hs.
    congruence.
Qed.

Lemma is_error_strip raw :
  is_error (lower (strip raw)) = is_error (lower raw).
Proof. unfold is_error. now rewrite !in_str_strip. Qed.

Lemma is_buffer_event_strip raw :
  is_buffer_event (lower (strip raw)) = is_buffer_event (lower raw).
Proof. unfold is_buffer_event. now rewrite !in_str_strip. Qed.




(** The number of entries collected is the number of lines that add one. *)
Lemma collected_by_length {A : Type} (added : string -> nat -> list A)
    (fires : string -> bool) f : forall start,
  (forall l n, List.length (added l n) = if fires l then 1 else 0) ->
  List.length (collected_by added start f)
  = List.length (filter (fun raw => fires (strip raw)) f).
Proof.
  intros start H. revert start.
  induction f as [|raw f IH]; intros start; [reflexivity|].
  unfold collected_by. cbn [enumerate flat_map fst snd filter].
  fold (collected_by added (S start) f).
  rewrite length_app, H, IH.
  now destruct (fires (strip raw)).
Qed.

Lemma new_errors_length l n :
  List.length (new_errors l n) = if is_error (lower l) then 1 else 0.
Proof.
  unfold new_errors. destruct (is_error (lower l)) eqn:He.
  - now rewrite (is_error_truthy _ He).
  - now rewrite andb_false_r.
Qed.

Lemma new_events_length l n :
  List.length (new_events l n) = if is_buffer_event (lower l) then 1 else 0.
Proof.
  unfold new_events. destruct (is_buffer_event (lower l)) eqn:He.
  - now rewrite (is_buffer_event_truthy _ He).
  - now rewrite andb_false_r.
Qed.


Lemma errors_length_parse_log p f :
  List.length (errors (parse_log (__init__ p) f))
  = List.length (filter (fun raw => is_error (lower raw)) f).
Proof.
  rewrite errors_parse_log.
  change (flat_map _ _) with (collected_by new_errors 1 f).
  rewrite (collected_by_length new_errors (fun l => is_error (lower l)))
    by apply new_errors_length.
  f_equal. apply filter_ext. intros raw. apply is_error_strip.
Qed.

Lemma events_length_parse_log p f :
  List.length (events (parse_log (__init__ p) f))
  = List.length (filter (fun raw => is_buffer_event (lower raw)) f).
Proof.
  rewrite events_parse_log.
  change (flat_map _ _) with (collected_by new_events 1 f).
  rewrite (collected_by_length new_events
             (fun l => is_buffer_event (lower l)))
    by apply new_events_length.
  f_equal. apply filter_ext. intros raw. apply is_buffer_event_strip.
Qed.


(** ** The verdict, read off the file *)

Lemma parse_verdict_value p f :
  let a := parse_log (__init__ p) f in
  snd (_print_pass_fail a)
  = (List.length (errors a) =? 0) && (List.length (events a) =? 0).
Proof.
  cbv zeta. set (a := parse_log (__init__ p) f).
  pose proof (count_type_le "MediaCodec" (errors a)) as Hm.
  pose proof (count_overflow_underrun _ (events_types_parse_log p f)) as Hev.
  fold a in Hev.
  rewrite pass_fail_value, failures_parts.
  destruct (Nat.ltb_spec 0 (List.length (errors a))),
           (Nat.ltb_spec 0 (count_type "overflow" (events a))),
           (Nat.ltb_spec 0 (count_type "underrun" (events a))),
           (Nat.ltb_spec 0 (count_type "MediaCodec" (errors a)));
    cbn [app];
    destruct (Nat.eqb_spec (List.length (errors a)) 0),
             (Nat.eqb_spec (List.length (events a)) 0);
    cbn [andb]; try reflexivity; lia.
Qed.

Lemma filter_length_zero {A : Type} (g : A -> bool) (l : list A) :
  (List.length (filter g l) =? 0) = negb (existsb g l).
Proof.
  induction l as [|x l IH]; [reflexivity|].
  cbn. destruct (g x); [reflexivity | exact IH].
Qed.

Lemma is_error_contains raw :
  is_error (lower raw) = true <->
  contains "error" raw \/ contains "fail" raw.
Proof.
  unfold is_error. now rewrite orb_true_iff, !in_str_contains.
Qed.

Lemma is_buffer_event_contains raw :
  is_buffer_event (lower raw) = true <->
  contains "overflow" raw \/ contains "underrun" raw.
Proof.
  unfold is_buffer_event. now rewrite orb_true_iff, !in_str_contains.
Qed.

(** X3.  The main verdict of a parsed file is Fail exactly when some line
    of the file contains "error", "fail", "overflow" or "underrun" (letter
    case ignored), and Pass exactly when no line does: warnings, buffer
    health samples and memory readings never change the verdict. *)
Theorem verdict_of_file (p : string) (f : list string) :
  let a := parse_log (__init__ p) f in
  (snd (_print_pass_fail a) = false <->
   Exists (fun raw => contains "error" raw \/ contains "fail" raw \/
                      contains "overflow" raw \/ contains "underrun" raw) f)
  /\ (snd (_print_pass_fail a) = true <-> Forall harmless f).
Proof.
  cbv zeta. rewrite parse_verdict_value.
  rewrite errors_length_parse_log, events_length_parse_log.
  rewrite !filter_length_zero.
  split.
  - rewrite andb_false_iff, !negb_false_iff, !existsb_exists, Exists_exists.
    split.
    + intros [(raw & Hin & H) | (raw & Hin & H)]; exists raw;
        (split; [exact Hin|]).
      * apply is_error_contains in H. tauto.
      * apply is_buffer_event_contains in H. tauto.
    + intros (raw & Hin & [H | [H | [H | H]]]).
      * left. exists raw. split; [exact Hin|].
        apply is_error_contains. now left.
      * left. exists raw. split; [exact Hin|].
        apply is_error_contains. now right.
      * right. exists raw. split; [exact Hin|].
        apply is_buffer_event_contains. now left.
      * right. exists raw. split; [exact Hin|].
        apply is_buffer_event_contains. now right.
  - rewrite andb_true_iff, !negb_true_iff, Forall_forall.
    unfold harmless. split.
    + intros [He Hb] raw Hin.
      assert (He' : is_error (lower raw) = false).
      { destruct (is_error (lower raw)) eqn:E; [| reflexivity].
        rewrite <- He. symmetry. apply existsb_exists. now exists raw. }
      assert (Hb' : is_buffer_event (lower raw) = false).
      { destruct (is_buffer_event (lower raw)) eqn:E; [| reflexivity].
        rewrite <- Hb. symmetry. apply existsb_exists. now exists raw. }
      repeat split; intros Hc.
      * assert (is_error (lower raw) = true)
          by (apply is_error_contains; now left). congruence.
      * assert (is_error (lower raw) = true)
          by (apply is_error_contains; now right). congruence.
      * assert (is_buffer_event (lower raw) = true)
          by (apply is_buffer_event_contains; now left). congruence.
      * assert (is_buffer_event (lower raw) = true)
          by (apply is_buffer_event_contains; now right). congruence.
    + intros H. split.
      * destruct (existsb (fun raw => is_error (lower raw)) f) eqn:E;
          [| reflexivity].
        apply existsb_exists in E. destruct E as (raw & Hin & He).
        apply is_error_contains in He.
        destruct (H raw Hin) as (H1 & H2 & _). tauto.
      * destruct (existsb (fun raw => is_buffer_event (lower raw)) f) eqn:E;
          [| reflexivity].
        apply existsb_exists in E. destruct E as (raw & Hin & He).
        apply is_buffer_event_contains in He.
        destruct (H raw Hin) as (_ & _ & H3 & H4). tauto.
Qed.

(** ** Critical issues and the verdict *)

(** X4.  Whenever the critical issues section flags an issue, the main
    verdict is Fail (the converse fails: an error of subtype Buffer,
    Encoder or Unknown fails the verdict without being flagged); at most
    four issues are flagged. *)
Theorem critical_issue_fails (self : AudioLogAnalyzer) :
  critical_issues self <> [] ->
  snd (_print_pass_fail self) = false
  /\ List.length (critical_issues self) <= 4.
Proof.
  intros Hc. split.
  - destruct (snd (_print_pass_fail self)) eqn:E; [exfalso | reflexivity].
    rewrite pass_fail_value, failures_parts in E.
    apply Hc. unfold critical_issues.
    destruct (Nat.ltb_spec 0 (List.length (errors self)));
      [discriminate|].
    destruct (Nat.ltb_spec 0 (count_type "overflow" (events self)));
      [discriminate|].
    destruct (Nat.ltb_spec 0 (count_type "underrun" (events self)));
      [discriminate|].
    destruct (errors self); [reflexivity | cbn in *; lia].
  - unfold critical_issues.
    destruct (filter (fun e => String.eqb (type e) "MediaCodec")
                     (errors self));
      destruct (0 <? count_type "overflow" (events self));
      destruct (0 <? count_type "underrun" (events self));
      destruct (filter (fun e => String.eqb (type e) "AudioRecord")
                       (errors self));
      rewrite ?length_app; cbn [List.length]; lia.
Qed.

Lemma critical_issue_fails_witness :
  let a := parse_log (__init__ "a.log")
             ["AudioRecord read failed"; "ring buffer underrun"] in
  critical_issues a <> [] /\
  snd (_print_pass_fail a) = false /\
  List.length (critical_issues a) <= 4.
Proof.
  cbv zeta.
  assert (H : critical_issues
                (parse_log (__init__ "a.log")
                   ["AudioRecord read failed"; "ring buffer underrun"])
              <> []) by (vm_compute; discriminate).
  split; [exact H|].
  exact (critical_issue_fails _ H).
Defined.

(** ** Totals of the error breakdown *)

Lemma list_sum_perm (l l' : list nat) :
  Permutation l l' -> list_sum l = list_sum l'.
Proof. induction 1; simpl in *; lia. Qed.

Lemma incr_sum k c :
  list_sum (map snd (Counter.incr k c)) = S (list_sum (map snd c)).
Proof.
  induction c as [|[k' n] c IH]; [reflexivity|].
  cbn [Counter.incr]. destruct (String.eqb k k').
  - reflexivity.
  - change (list_sum (map snd ((k', n) :: Counter.incr k c)))
      with (n + list_sum (map snd (Counter.incr k c))).
    rewrite IH. change (list_sum (map snd ((k', n) :: c)))
      with (n + list_sum (map snd c)). lia.
Qed.

Lemma of_list_sum l :
  list_sum (map snd (Counter.of_list l)) = List.length l.
Proof.
  induction l as [|x l IH] using rev_ind; [reflexivity|].
  rewrite of_list_snoc, incr_sum, IH, length_app. cbn. lia.
Qed.

(** X5.  The counts listed in the error breakdown add up to the total
    number of errors: every error is counted under exactly one subtype. *)
Theorem breakdown_counts_total (self : AudioLogAnalyzer) :
  list_sum (map snd (error_types self)) = List.length (errors self).
Proof.
  unfold error_types, Counter.most_common.
  rewrite (list_sum_perm _ (map snd (Counter.of_list
                                       (map type (errors self))))).
  - now rewrite of_list_sum, length_map.
  - apply Permutation_map, sort_stable_perm.
Qed.

(** ** The two windows of the buffer health analysis *)

Lemma lastn_length {A : Type} n (l : list A) :
  List.length (lastn n l) = Nat.min n (List.length l).
Proof. unfold lastn. rewrite length_skipn. lia. Qed.

Lemma windows_overlap {A : Type} (l : list A) :
  List.length l < 10 ->
  exists a shared b,
    l = a ++ shared ++ b /\ firstn 5 l = a ++ shared /\
    lastn 5 l = shared ++ b /\
    List.length shared = 2 * Nat.min 5 (List.length l) - List.length l.
Proof.
  intros Hn. set (n := List.length l) in *.
  exists (firstn (n - 5) l), (skipn (n - 5) (firstn 5 l)), (skipn 5 l).
  assert (Hfirst : firstn 5 l
                   = firstn (n - 5) l ++ skipn (n - 5) (firstn 5 l)).
  { rewrite <- (firstn_skipn (n - 5) (firstn 5 l)) at 1.
    rewrite firstn_firstn. now replace (Nat.min (n - 5) 5) with (n - 5)
      by lia. }
  split; [| split; [exact Hfirst | split]].
  - rewrite app_assoc, <- Hfirst. symmetry. apply firstn_skipn.
  - unfold lastn. fold n.
    rewrite <- (firstn_skipn 5 l) at 1. rewrite skipn_app.
    rewrite length_firstn. fold n.
    replace (n - 5 - Nat.min 5 n) with 0 by lia. reflexivity.
  - rewrite length_skipn, length_firstn. fold n. lia.
Qed.

Lemma windows_apart {A : Type} (l : list A) :
  10 <= List.length l ->
  exists mid, l = firstn 5 l ++ mid ++ lastn 5 l.
Proof.
  intros Hn. set (n := List.length l) in *.
  exists (firstn (n - 10) (skipn 5 l)). unfold lastn. fold n.
  replace (n - 5) with (n - 10 + 5) by lia.
  rewrite <- skipn_skipn, firstn_skipn. symmetry. apply firstn_skipn.
Qed.

(** X6.  The buffer health analysis prints the first five and the last five
    samples.  Each window holds min(5, n) of the n samples; with fewer than
    ten samples the windows share 2 * min(5, n) - n samples, which are
    printed twice (all of them when n <= 5); from ten samples on the
    windows are apart.  The section prints 4 lines without samples and
    8 + 2 * min(5, n) lines otherwise. *)
Theorem buffer_analysis_windows (self : AudioLogAnalyzer) :
  let l := buffer_stats self in
  let n := List.length l in
  List.length (firstn 5 l) = Nat.min 5 n
  /\ List.length (lastn 5 l) = Nat.min 5 n
  /\ (if n <? 10
      then exists a shared b,
             l = a ++ shared ++ b /\ firstn 5 l = a ++ shared /\
             lastn 5 l = shared ++ b /\
             List.length shared = 2 * Nat.min 5 n - n
      else exists mid, l = firstn 5 l ++ mid ++ lastn 5 l)
  /\ List.length (_print_buffer_analysis self)
     = (if n =? 0 then 4 else 8 + 2 * Nat.min 5 n).
Proof.
  cbv zeta.
  split; [apply length_firstn|]. split; [apply lastn_length|]. split.
  - destruct (Nat.ltb_spec (List.length (buffer_stats self)) 10).
    + now apply windows_overlap.
    + now apply windows_apart.
  - unfold _print_buffer_analysis.
    destruct (buffer_stats self) as [|x l] eqn:Hl; [reflexivity|].
    rewrite <- Hl.
    assert (Hpos : List.length (buffer_stats self) <> 0)
      by (rewrite Hl; discriminate).
    apply Nat.eqb_neq in Hpos. rewrite Hpos.
    rewrite !length_app, !length_map, length_firstn, lastn_length.
    cbn [List.length]. lia.
Qed.

(** ** The verdict line of the report *)











